(** * Climate Control System: leaf node watchdog and sensor hub

  A shallow embedding of the two Arduino sketches of the repository:
  the power control leaf node (the sketch with [checkTime], [powerOn],
  [powerOff] and the receive [loop]) and [HubNode.ino] (the sensor hub with
  [powerNode] and the decision [loop]).

  Machine arithmetic is written out.  [unsigned long] is 32 bits wide on
  every Arduino core.  The width of [int] depends on the board: 16 bits on
  the AVR boards (Uno, Nano, Mega: the 5 V boards with a 10 bit converter
  that both sketches are configured for, [VRef 5.0] and [/ 1024]), 32 bits
  on the ARM and ESP cores.  The leaf node's definitions therefore take the
  width of [int] as their first argument. *)

From Stdlib Require Import ZArith QArith List Bool Lia Sorted.
Import ListNotations.
Open Scope Z_scope.

(** ** Machine integers *)

Module CInt.

(** Value of an unsigned integer of [bits] bits: reduction modulo [2^bits]. *)
Definition to_unsigned (bits x : Z) : Z := x mod 2 ^ bits.

(** Value of a two's complement integer of [bits] bits. *)
Definition to_signed (bits x : Z) : Z :=
  (x + 2 ^ (bits - 1)) mod 2 ^ bits - 2 ^ (bits - 1).

Definition ulong_bits : Z := 32.
Definition avr_int_bits : Z := 16.
Definition arm_int_bits : Z := 32.

(** Conversion of a C++ [bool] to [uint8_t]. *)
Definition of_bool (b : bool) : Z := if b then 1 else 0.

(** Conversion of an integer to a C++ [bool], which the Arduino core's
    [boolean] is: any value but zero is true. *)
Definition truthy (x : Z) : bool := negb (x =? 0).

End CInt.

(** ** The power control leaf node *)

Module Leaf.

Import CInt.

(** [#define NodeID 3] *)
Definition NodeID : Z := 3.

(** Size of the receive buffer, [RH_ASK_MAX_MESSAGE_LEN] of the RadioHead
    library: payload 67, less 4 header bytes, the length byte and 2 bytes of
    frame check. *)
Definition RH_ASK_MAX_MESSAGE_LEN : nat := 60.

(** The globals [PowerIsOn], [TimeStart], [OnPeriod], and the level of the
    output line [PowerPin] ([true] is [HIGH], the relay energized). *)
Record State : Set := mkState
  { PowerIsOn : bool;
    TimeStart : Z;
    OnPeriod  : Z;
    PowerPin  : bool }.

(** Globals are zero initialised; an output pin is low after [pinMode]. *)
Definition boot : State :=
  {| PowerIsOn := false; TimeStart := 0; OnPeriod := 0; PowerPin := false |}.

(** [millis()] at [clock] milliseconds after start: an [unsigned long]. *)
Definition millis (clock : Z) : Z := to_unsigned ulong_bits clock.

(** [millis() - TimeStart], computed in [unsigned long]. *)
Definition elapsed (clock : Z) (s : State) : Z :=
  to_unsigned ulong_bits (millis clock - TimeStart s).

(** [void checkTime()]: the [int] [OnPeriod] is converted to
    [unsigned long] for the comparison. *)
Definition checkTime (clock : Z) (s : State) : State :=
  if elapsed clock s >? to_unsigned ulong_bits (OnPeriod s)
  then {| PowerIsOn := false; TimeStart := TimeStart s;
          OnPeriod := OnPeriod s; PowerPin := false |}
  else s.

(** [void powerOn(uint8_t onTime)]: [onTime * 1000] is computed in [int]
    and stored in the [int] [OnPeriod].  [onTime] is a [uint8_t], a value
    from 0 to 255, as [loop] takes it from the buffer. *)
Definition powerOn (int_bits : Z) (onTime : Z) (clock : Z) (s : State) : State :=
  {| PowerIsOn := true;
     TimeStart := millis clock;
     OnPeriod  := to_signed int_bits (onTime * 1000);
     PowerPin  := true |}.

(** [void powerOff(uint8_t offTime)]: [offTime] is a [uint8_t], a value
    from 0 to 255, as [loop] takes it from the buffer. *)
Definition powerOff (int_bits : Z) (offTime : Z) (clock : Z) (s : State) : State :=
  if (offTime =? 0) && PowerIsOn s
  then {| PowerIsOn := false; TimeStart := TimeStart s;
          OnPeriod := OnPeriod s; PowerPin := false |}
  else if PowerIsOn s
  then {| PowerIsOn := PowerIsOn s; TimeStart := millis clock;
          OnPeriod := to_signed int_bits (offTime * 1000);
          PowerPin := PowerPin s |}
  else s.

(** [Receiver.recv(buf, &buflen)] on a delivered message: at most
    [sizeof(buf)] bytes of the message are copied to the start of [buf];
    the rest of the local array, which [loop] never initialises, keeps
    what the memory held before ([stale]). *)
Definition recv (msg stale : list Z) : list Z :=
  firstn RH_ASK_MAX_MESSAGE_LEN msg
    ++ skipn (length (firstn RH_ASK_MAX_MESSAGE_LEN msg)) stale.

(** [buf[i]] *)
Definition at_index (buf : list Z) (i : nat) : Z := nth i buf 0.

(** The three fields [loop] reads from the buffer: [buf[0]],
    [(boolean) buf[1] == true] and [buf[2]]. *)
Definition decode (buf : list Z) : Z * bool * Z :=
  (at_index buf 0, truthy (at_index buf 1), at_index buf 2).

(** What one pass of [loop] sees: the clock, the message the receiver
    delivers ([None] when [recv] returns false) and the previous content of
    the memory of [buf]. *)
Record Tick : Set := mkTick
  { clock : Z;
    rx    : option (list Z);
    stale : list Z }.

(** [void loop()] *)
Definition loop (int_bits : Z) (s : State) (k : Tick) : State :=
  match rx k with
  | Some msg =>
      let '(id, on, len) := decode (recv msg (stale k)) in
      if NodeID =? id
      then if on
           then powerOn int_bits len (clock k) s
           else powerOff int_bits len (clock k) s
      else s
  | None =>
      if PowerIsOn s then checkTime (clock k) s else s
  end.

(** Successive passes of [loop]. *)
Definition run (int_bits : Z) (s : State) (ks : list Tick) : State :=
  fold_left (loop int_bits) ks s.

(** A pass in which nothing is received. *)
Definition idle (t : Z) : Tick := {| clock := t; rx := None; stale := [] |}.

(** A pass in which [msg] is received into a zeroed buffer. *)
Definition heard (t : Z) (msg : list Z) : Tick :=
  {| clock := t; rx := Some msg; stale := [] |}.

(** The state the watchdog leaves: power off, line low, timing untouched. *)
Definition switched_off (s : State) : State :=
  {| PowerIsOn := false; TimeStart := TimeStart s;
     OnPeriod := OnPeriod s; PowerPin := false |}.

(** The flag agrees with the output line. *)
Definition flag_matches_pin (s : State) : Prop := PowerIsOn s = PowerPin s.

(** The operations the receive loop invokes. *)
Inductive Op : Set :=
| OpCheckTime (clock : Z)
| OpPowerOn (onTime clock : Z)
| OpPowerOff (offTime clock : Z).

Definition apply_op (int_bits : Z) (s : State) (o : Op) : State :=
  match o with
  | OpCheckTime t => checkTime t s
  | OpPowerOn n t => powerOn int_bits n t s
  | OpPowerOff n t => powerOff int_bits n t s
  end.

(** States reached from [boot] by the three operations. *)
Inductive reachable (int_bits : Z) : State -> Prop :=
| reach_boot : reachable int_bits boot
| reach_op s o : reachable int_bits s -> reachable int_bits (apply_op int_bits s o).

End Leaf.

(** ** The sensor hub *)

Module Hub.

Import CInt.

(** Set points and tolerances. *)
Definition TargetTemp : Z := 21.
Definition TargetHumidity : Z := 40.
Definition ToleranceTemp : Z := 1.
Definition ToleranceHumidity : Z := 5.

(** Seconds each module is activated for. *)
Definition TimeOnHeater : Z := 20.
Definition TimeOnHumidifier : Z := 15.
Definition TimeOnFan : Z := 30.

(** Node identities. *)
Definition HubNode : Z := 0.
Definition HumNode : Z := 1.
Definition HeatNode : Z := 2.
Definition FanNode : Z := 3.

(** The array [transmissionPulse] that [powerNode] fills: its parameters
    [ID] and [len] are [uint8_t], [powerOn] is a [boolean]. *)
Definition transmissionPulse (ID : Z) (powerOn : bool) (len : Z) : list Z :=
  [to_unsigned 8 ID; of_bool powerOn; to_unsigned 8 len].

(** [void powerNode(uint8_t ID, boolean powerOn, uint8_t len)]: the three
    bytes go on the air; [air] is the sequence of packets sent so far. *)
Definition powerNode (ID : Z) (powerOn : bool) (len : Z)
    (air : list (list Z)) : list (list Z) :=
  air ++ [transmissionPulse ID powerOn len].

(** Comparison of a [float] reading with an [int] bound.  The bounds are
    small integers, which [float] represents exactly, and readings computed
    from [analogRead] are finite: the comparison is that of the numbers. *)
Definition float_gt (x : Q) (k : Z) : bool := negb (Qle_bool x (inject_Z k)).
Definition float_lt (x : Q) (k : Z) : bool := negb (Qle_bool (inject_Z k) x).

(** The two tests [loop] makes on each reading, giving the pair of flags
    (off, on):
    [if (v > target + tolerance) Off = true;
     else if (v < target - tolerance) On = true;] *)
Definition thresholds (target tolerance : Z) (v : Q) : bool * bool :=
  if float_gt v (target + tolerance) then (true, false)
  else if float_lt v (target - tolerance) then (false, true)
  else (false, false).

(** The four locals of [loop]. *)
Record Flags : Set := mkFlags
  { HeatingOn : bool;
    HeatingOff : bool;
    HumidifierOn : bool;
    HumidifierOff : bool }.

(** First half of [loop]: the flags from the two readings. *)
Definition sense (temp humidity : Q) : Flags :=
  let '(heat_off, heat_on) := thresholds TargetTemp ToleranceTemp temp in
  let '(hum_off, hum_on) :=
    thresholds TargetHumidity ToleranceHumidity humidity in
  {| HeatingOn := heat_on; HeatingOff := heat_off;
     HumidifierOn := hum_on; HumidifierOff := hum_off |}.

(** Second half of [loop]: the transmissions, humidifier first, then
    heater, then fan. *)
Definition transmit (f : Flags) (air : list (list Z)) : list (list Z) :=
  let air :=
    if HumidifierOn f then powerNode HumNode true TimeOnHumidifier air
    else if HumidifierOff f then powerNode HumNode false 0 air
    else air in
  let air :=
    if HeatingOn f then powerNode HeatNode true TimeOnHeater air
    else if HeatingOff f then powerNode HeatNode false 0 air
    else air in
  if HeatingOn f || HumidifierOn f
  then powerNode FanNode true TimeOnFan air
  else air.

(** [void loop()] *)
Definition loop (temp humidity : Q) (air : list (list Z)) : list (list Z) :=
  transmit (sense temp humidity) air.

(** The packets of one cycle. *)
Definition cycle (temp humidity : Q) : list (list Z) := loop temp humidity [].

(** The three outcomes a pair of flags stands for, read the way [loop]
    tests them before transmitting: [if (On) ... else if (Off) ...]. *)
Inductive Decision : Set :=
| ActivateRequested
| DeactivateRequested
| NoChange.

Definition outcome (on off : bool) : Decision :=
  if on then ActivateRequested
  else if off then DeactivateRequested
  else NoChange.

Definition heater_decision (f : Flags) : Decision :=
  outcome (HeatingOn f) (HeatingOff f).

Definition humidifier_decision (f : Flags) : Decision :=
  outcome (HumidifierOn f) (HumidifierOff f).

(** The controlled quantities with their set points. *)
Inductive Quantity : Set := Temperature | Humidity.

Definition target (q : Quantity) : Z :=
  match q with Temperature => TargetTemp | Humidity => TargetHumidity end.

Definition tolerance (q : Quantity) : Z :=
  match q with Temperature => ToleranceTemp | Humidity => ToleranceHumidity end.

(** The decision [loop] takes for quantity [q] in a cycle. *)
Definition decision (q : Quantity) (temp humidity : Q) : Decision :=
  match q with
  | Temperature => heater_decision (sense temp humidity)
  | Humidity => humidifier_decision (sense temp humidity)
  end.

(** The reading that belongs to quantity [q]. *)
Definition reading (q : Quantity) (temp humidity : Q) : Q :=
  match q with Temperature => temp | Humidity => humidity end.

(** A packet that switches the fan off. *)
Definition fan_deactivate (p : list Z) : bool :=
  (nth 0 p 0 =? FanNode) && negb (truthy (nth 1 p 0)).

(** The three cases of the two tests on a reading. *)
Inductive band_case (target tolerance : Z) (v : Q) : bool * bool -> Prop :=
| band_above :
    (inject_Z (target + tolerance) < v)%Q ->
    band_case target tolerance v (true, false)
| band_below :
    (v < inject_Z (target - tolerance))%Q ->
    band_case target tolerance v (false, true)
| band_within :
    (inject_Z (target - tolerance) <= v <= inject_Z (target + tolerance))%Q ->
    band_case target tolerance v (false, false).

End Hub.

(** ** Passes and packets *)

Module Trace.

Import CInt.

(** The pass in which [loop] calls [powerOn]: a message is delivered, the
    buffer then holds [NodeID] at index 0 and a true byte at index 1. *)
Definition activates (k : Leaf.Tick) : bool :=
  match Leaf.rx k with
  | Some msg =>
      let '(id, on, _) := Leaf.decode (Leaf.recv msg (Leaf.stale k)) in
      (Leaf.NodeID =? id) && on
  | None => false
  end.

(** A sequence of passes that keeps a window of [P] seconds open: every pass
    without a message falls within [P * 1000] milliseconds of the start of
    the current window, a message for another node changes nothing, and an
    activate packet of the hub for this node, for [P] seconds, starts the
    window again at the clock of its pass. *)
Inductive sustained (P : Z) : Z -> list Leaf.Tick -> Prop :=
| sustained_end t0 : sustained P t0 []
| sustained_idle t0 k ks :
    Leaf.rx k = None ->
    t0 <= Leaf.clock k <= t0 + P * 1000 ->
    sustained P t0 ks ->
    sustained P t0 (k :: ks)
| sustained_other t0 k b rest ks :
    Leaf.rx k = Some (b :: rest) ->
    b <> Leaf.NodeID ->
    sustained P t0 ks ->
    sustained P t0 (k :: ks)
| sustained_renew t0 k ks :
    Leaf.rx k = Some (Hub.transmissionPulse Leaf.NodeID true P) ->
    sustained P (Leaf.clock k) ks ->
    sustained P t0 (k :: ks).

(** The fields of a packet on the air. *)
Definition pkt_target (p : list Z) : Z := nth 0 p 0.
Definition pkt_activate (p : list Z) : Z := nth 1 p 0.
Definition pkt_duration (p : list Z) : Z := nth 2 p 0.

(** The run time the hub is configured with for each leaf node. *)
Definition TimeOn (node : Z) : Z :=
  if node =? Hub.HumNode then Hub.TimeOnHumidifier
  else if node =? Hub.HeatNode then Hub.TimeOnHeater
  else Hub.TimeOnFan.

(** The packet, if any, that a decision puts on the air for [node]. *)
Definition command (node : Z) (d : Hub.Decision) : list (list Z) :=
  match d with
  | Hub.ActivateRequested => [[node; 1; TimeOn node]]
  | Hub.DeactivateRequested => [[node; 0; 0]]
  | Hub.NoChange => []
  end.

(** Three bytes, a leaf node as target, a flag of 0 or 1. *)
Definition well_formed (p : list Z) : bool :=
  (length p =? 3)%nat
  && forallb (fun b => (0 <=? b) && (b <=? 255)) p
  && negb (pkt_target p =? Hub.HubNode)
  && ((pkt_target p =? Hub.HumNode) || (pkt_target p =? Hub.HeatNode)
      || (pkt_target p =? Hub.FanNode))
  && ((pkt_activate p =? 0) || (pkt_activate p =? 1)).

(** The duration of a packet is the run time of its target when it
    activates, and 0 when it deactivates. *)
Definition duration_by_kind (p : list Z) : bool :=
  if pkt_activate p =? 0 then pkt_duration p =? 0
  else pkt_duration p =? TimeOn (pkt_target p).

End Trace.

(** ** Machine arithmetic facts *)

Import CInt.

Lemma pow2_32 : 2 ^ ulong_bits = 4294967296.
Proof. reflexivity. Qed.

Lemma to_unsigned_small (bits x : Z) :
  0 <= x < 2 ^ bits -> to_unsigned bits x = x.
Proof. intros Hx. unfold to_unsigned. now apply Z.mod_small. Qed.

Lemma to_signed_fits (bits x : Z) :
  0 < bits -> - 2 ^ (bits - 1) <= x < 2 ^ (bits - 1) -> to_signed bits x = x.
Proof.
  intros Hb Hx. unfold to_signed.
  replace (2 ^ bits) with (2 * 2 ^ (bits - 1)).
  - rewrite Z.mod_small; lia.
  - rewrite <- Z.pow_succ_r by lia. f_equal. lia.
Qed.

Lemma millis_difference (t0 t : Z) :
  0 <= t - t0 < 2 ^ ulong_bits ->
  to_unsigned ulong_bits (Leaf.millis t - Leaf.millis t0) = t - t0.
Proof.
  intros Ht. unfold Leaf.millis, to_unsigned.
  rewrite <- Zminus_mod. now apply Z.mod_small.
Qed.

Lemma elapsed_since (s : Leaf.State) (t0 t : Z) :
  Leaf.TimeStart s = Leaf.millis t0 ->
  0 <= t - t0 < 2 ^ ulong_bits ->
  Leaf.elapsed t s = t - t0.
Proof.
  intros Hs Ht. unfold Leaf.elapsed. rewrite Hs. now apply millis_difference.
Qed.

(** ** The watchdog of the leaf node *)

Section Watchdog.

Variable int_bits : Z.
Hypothesis int_bits_pos : 0 < int_bits.

(** [checkTime] compares the time since [TimeStart] with [OnPeriod]. *)
Lemma checkTime_spec (s : Leaf.State) (t0 t : Z) :
  Leaf.TimeStart s = Leaf.millis t0 ->
  0 <= Leaf.OnPeriod s < 2 ^ ulong_bits ->
  0 <= t - t0 < 2 ^ ulong_bits ->
  Leaf.checkTime t s =
    if t - t0 >? Leaf.OnPeriod s then Leaf.switched_off s else s.
Proof.
  intros Hs Hp Ht. unfold Leaf.checkTime.
  rewrite (elapsed_since s t0 t Hs Ht), (to_unsigned_small _ _ Hp).
  reflexivity.
Qed.

(** A period of [P] seconds is stored as [P * 1000] when that fits [int]. *)
Lemma powerOn_state (P t0 : Z) (s : Leaf.State) :
  - 2 ^ (int_bits - 1) <= P * 1000 < 2 ^ (int_bits - 1) ->
  Leaf.powerOn int_bits P t0 s =
    Leaf.mkState true (Leaf.millis t0) (P * 1000) true.
Proof.
  intros Hfit. unfold Leaf.powerOn. now rewrite to_signed_fits.
Qed.

(** A pass without a message in an on state is [checkTime]. *)
Lemma loop_idle_on (s : Leaf.State) (t : Z) (junk : list Z) :
  Leaf.PowerIsOn s = true ->
  Leaf.loop int_bits s (Leaf.mkTick t None junk) = Leaf.checkTime t s.
Proof. intros Hon. unfold Leaf.loop. simpl. now rewrite Hon. Qed.

(** Watchdog window, not before: while no message is received and the clock
    has not passed [t0 + w], a node on since [t0] with period [w] keeps its
    state. *)
Lemma watchdog_holds (s : Leaf.State) (t0 : Z) (ks : list Leaf.Tick) :
  Leaf.PowerIsOn s = true ->
  Leaf.TimeStart s = Leaf.millis t0 ->
  0 <= Leaf.OnPeriod s < 2 ^ ulong_bits ->
  Forall (fun k => Leaf.rx k = None /\
                   t0 <= Leaf.clock k <= t0 + Leaf.OnPeriod s) ks ->
  Leaf.run int_bits s ks = s.
Proof.
  intros Hon Hs Hp Hks. unfold Leaf.run.
  induction Hks as [|k ks [Hrx Hk] _ IH]; simpl.
  - reflexivity.
  - replace (Leaf.loop int_bits s k) with s; [exact IH|].
    destruct k as [t r junk]; simpl in *; subst r.
    rewrite (loop_idle_on s t junk Hon).
    rewrite (checkTime_spec s t0 t Hs Hp) by (rewrite pow2_32 in *; lia).
    destruct (t - t0 >? Leaf.OnPeriod s) eqn:E; [lia | reflexivity].
Qed.

(** Watchdog window, expiry: the first pass without a message after
    [t0 + w] switches the node off. *)
Lemma watchdog_expires (s : Leaf.State) (t0 t : Z) (junk : list Z) :
  Leaf.PowerIsOn s = true ->
  Leaf.TimeStart s = Leaf.millis t0 ->
  0 <= Leaf.OnPeriod s < 2 ^ ulong_bits ->
  t0 + Leaf.OnPeriod s < t < t0 + 2 ^ ulong_bits ->
  Leaf.loop int_bits s (Leaf.mkTick t None junk) = Leaf.switched_off s.
Proof.
  intros Hon Hs Hp Ht.
  rewrite (loop_idle_on s t junk Hon).
  rewrite (checkTime_spec s t0 t Hs Hp) by lia.
  destruct (t - t0 >? Leaf.OnPeriod s) eqn:E; [reflexivity | lia].
Qed.

End Watchdog.

(** ** Commands applied by the leaf node *)

Section Commands.

Variable int_bits : Z.
Hypothesis int_bits_pos : 0 < int_bits.

(** The bytes a packet puts at the start of the buffer. *)
Lemma recv_three (b0 b1 b2 : Z) (junk : list Z) :
  Leaf.decode (Leaf.recv [b0; b1; b2] junk) = (b0, truthy b1, b2).
Proof. reflexivity. Qed.

(** A packet of the hub addressed to this node reaches [powerOn] or
    [powerOff] with its duration. *)
Lemma loop_addressed (s : Leaf.State) (t d : Z) (a : bool) (junk : list Z) :
  0 <= d < 256 ->
  Leaf.loop int_bits s
    (Leaf.mkTick t (Some (Hub.transmissionPulse Leaf.NodeID a d)) junk) =
  if a then Leaf.powerOn int_bits d t s else Leaf.powerOff int_bits d t s.
Proof.
  intros Hd. unfold Leaf.loop, Hub.transmissionPulse. simpl Leaf.rx. cbv iota.
  rewrite recv_three.
  rewrite (to_unsigned_small 8 d) by (change (2 ^ 8) with 256; lia).
  change (to_unsigned 8 Leaf.NodeID) with Leaf.NodeID.
  rewrite Z.eqb_refl. destruct a; reflexivity.
Qed.

(** [powerOff(0)] in an on state switches off at once. *)
Lemma powerOff_now (s : Leaf.State) (t : Z) :
  Leaf.PowerIsOn s = true ->
  Leaf.powerOff int_bits 0 t s = Leaf.switched_off s.
Proof. intros Hon. unfold Leaf.powerOff. rewrite Hon. reflexivity. Qed.

(** [powerOff(D)] with [D > 0] in an on state opens a new window of [D]
    seconds, when [D * 1000] fits [int]. *)
Lemma powerOff_deferred (s : Leaf.State) (D t : Z) :
  Leaf.PowerIsOn s = true ->
  0 < D -> D * 1000 < 2 ^ (int_bits - 1) ->
  Leaf.powerOff int_bits D t s =
    Leaf.mkState true (Leaf.millis t) (D * 1000) (Leaf.PowerPin s).
Proof.
  intros Hon HD Hfit. unfold Leaf.powerOff. rewrite Hon.
  destruct (D =? 0) eqn:E; [lia|]. simpl.
  rewrite to_signed_fits;
    [reflexivity | assumption | pose proof (Z.pow_nonneg 2 (int_bits - 1)); lia].
Qed.

(** [powerOff] in an off state does nothing. *)
Lemma powerOff_when_off (s : Leaf.State) (D t : Z) :
  Leaf.PowerIsOn s = false -> Leaf.powerOff int_bits D t s = s.
Proof.
  intros Hoff. unfold Leaf.powerOff. rewrite Hoff, andb_false_r. reflexivity.
Qed.

(** The window granted by [powerOn(P)] at [t0], when [P * 1000] fits [int]:
    the node keeps its state through every pass without a message up to
    [t0 + P * 1000], and the first such pass after it switches it off. *)
Lemma window_after_powerOn (P t0 : Z) (s : Leaf.State) :
  0 <= P -> P * 1000 < 2 ^ (int_bits - 1) -> P * 1000 < 2 ^ ulong_bits ->
  let s0 := Leaf.powerOn int_bits P t0 s in
  Leaf.PowerIsOn s0 = true /\ Leaf.PowerPin s0 = true /\
  (forall ks,
     Forall (fun k => Leaf.rx k = None /\
                      t0 <= Leaf.clock k <= t0 + P * 1000) ks ->
     Leaf.run int_bits s0 ks = s0) /\
  (forall t junk,
     t0 + P * 1000 < t < t0 + 2 ^ ulong_bits ->
     Leaf.loop int_bits s0 (Leaf.mkTick t None junk) = Leaf.switched_off s0).
Proof.
  intros HP Hfit Hul s0. subst s0.
  rewrite powerOn_state
    by (pose proof (Z.pow_nonneg 2 (int_bits - 1)); lia).
  repeat split.
  - intros ks Hks. apply (watchdog_holds int_bits _ t0);
      cbn [Leaf.PowerIsOn Leaf.TimeStart Leaf.OnPeriod]; auto; lia.
  - intros t junk Ht. apply (watchdog_expires int_bits _ t0);
      cbn [Leaf.PowerIsOn Leaf.TimeStart Leaf.OnPeriod]; auto; lia.
Qed.

(** X6: the window left by [powerOff(D)] received at [t1] in an on state,
    for a duration [D] of 1 to 255 seconds, when [D * 1000] fits [int]. *)
Lemma window_after_powerOff (D t1 : Z) (s : Leaf.State) :
  Leaf.PowerIsOn s = true ->
  0 < D <= 255 -> D * 1000 < 2 ^ (int_bits - 1) -> D * 1000 < 2 ^ ulong_bits ->
  let s1 := Leaf.powerOff int_bits D t1 s in
  Leaf.PowerIsOn s1 = true /\ Leaf.PowerPin s1 = Leaf.PowerPin s /\
  (forall ks,
     Forall (fun k => Leaf.rx k = None /\
                      t1 <= Leaf.clock k <= t1 + D * 1000) ks ->
     Leaf.run int_bits s1 ks = s1) /\
  (forall t junk,
     t1 + D * 1000 < t < t1 + 2 ^ ulong_bits ->
     Leaf.loop int_bits s1 (Leaf.mkTick t None junk) = Leaf.switched_off s1).
Proof.
  intros Hon HD Hfit Hul s1. subst s1.
  rewrite powerOff_deferred by (assumption || lia).
  repeat split.
  - intros ks Hks. apply (watchdog_holds int_bits _ t1);
      cbn [Leaf.PowerIsOn Leaf.TimeStart Leaf.OnPeriod]; auto; lia.
  - intros t junk Ht. apply (watchdog_expires int_bits _ t1);
      cbn [Leaf.PowerIsOn Leaf.TimeStart Leaf.OnPeriod]; auto; lia.
Qed.

(** X7: a deactivate packet with duration 0 heard in an on state: the node is
    off and the line low when the pass ends. *)
Lemma deactivate_now (s : Leaf.State) (t : Z) (junk : list Z) :
  Leaf.PowerIsOn s = true ->
  Leaf.loop int_bits s
    (Leaf.mkTick t (Some (Hub.transmissionPulse Leaf.NodeID false 0)) junk) =
  Leaf.switched_off s.
Proof.
  intros Hon. rewrite loop_addressed by lia. now apply powerOff_now.
Qed.

(** X8: an activate packet for [P2] seconds heard at [t1], in any state: the
    window starts again at [t1] with [P2 * 1000], when that fits [int]. *)
Lemma renewal (s : Leaf.State) (P2 t1 : Z) (junk : list Z) :
  0 <= P2 <= 255 -> P2 * 1000 < 2 ^ (int_bits - 1) ->
  Leaf.loop int_bits s
    (Leaf.mkTick t1 (Some (Hub.transmissionPulse Leaf.NodeID true P2)) junk) =
  Leaf.mkState true (Leaf.millis t1) (P2 * 1000) true.
Proof.
  intros HP Hfit. rewrite loop_addressed by lia.
  apply powerOn_state; [assumption|].
  pose proof (Z.pow_nonneg 2 (int_bits - 1)). lia.
Qed.

End Commands.

(** With a 32 bit [int] every duration a packet can carry fits. *)
Lemma byte_duration_fits_32 (P : Z) :
  0 <= P <= 255 ->
  P * 1000 < 2 ^ (arm_int_bits - 1) /\ P * 1000 < 2 ^ ulong_bits.
Proof.
  intros HP. change (2 ^ (arm_int_bits - 1)) with 2147483648.
  rewrite pow2_32. lia.
Qed.

(** With a 16 bit [int] the durations up to 32 seconds fit. *)
Lemma short_duration_fits_16 (P : Z) :
  0 <= P <= 32 ->
  P * 1000 < 2 ^ (avr_int_bits - 1) /\ P * 1000 < 2 ^ ulong_bits.
Proof.
  intros HP. change (2 ^ (avr_int_bits - 1)) with 32768.
  rewrite pow2_32. lia.
Qed.

(** Every pass of [loop] is one of the three operations, or nothing. *)
Lemma loop_reachable (int_bits : Z) (s : Leaf.State) (k : Leaf.Tick) :
  Leaf.reachable int_bits s -> Leaf.reachable int_bits (Leaf.loop int_bits s k).
Proof.
  intros Hs. unfold Leaf.loop.
  destruct (Leaf.rx k) as [msg|].
  - destruct (Leaf.decode (Leaf.recv msg (Leaf.stale k))) as [[id on] len].
    destruct (Leaf.NodeID =? id); [|exact Hs].
    destruct on.
    + exact (Leaf.reach_op int_bits s (Leaf.OpPowerOn len (Leaf.clock k)) Hs).
    + exact (Leaf.reach_op int_bits s (Leaf.OpPowerOff len (Leaf.clock k)) Hs).
  - destruct (Leaf.PowerIsOn s); [|exact Hs].
    exact (Leaf.reach_op int_bits s (Leaf.OpCheckTime (Leaf.clock k)) Hs).
Qed.

Lemma run_reachable (int_bits : Z) (ks : list Leaf.Tick) (s : Leaf.State) :
  Leaf.reachable int_bits s -> Leaf.reachable int_bits (Leaf.run int_bits s ks).
Proof.
  unfold Leaf.run. revert s.
  induction ks as [|k ks IH]; intros s Hs; simpl.
  - exact Hs.
  - apply IH. now apply loop_reachable.
Qed.

(** Each operation keeps the flag and the output line together. *)
Lemma op_keeps_flag_and_pin (int_bits : Z) (s : Leaf.State) (o : Leaf.Op) :
  Leaf.flag_matches_pin s -> Leaf.flag_matches_pin (Leaf.apply_op int_bits s o).
Proof.
  unfold Leaf.flag_matches_pin. intros Hs.
  destruct o as [t|n t|n t]; simpl.
  - unfold Leaf.checkTime.
    destruct (Leaf.elapsed t s >? _); [reflexivity | exact Hs].
  - reflexivity.
  - unfold Leaf.powerOff.
    destruct (n =? 0); destruct (Leaf.PowerIsOn s) eqn:E; simpl;
      congruence.
Qed.

(** ** The claims about the leaf node *)




(** C2 on a board with a 16 bit [int]: [powerOn(33)] stores [33 * 1000] as
    [-32536], which [checkTime] reads as 4294934760 milliseconds, so the
    node is still on a day later; [powerOn(66)] stores 464, so the node is
    switched off half a second after it was granted 66 seconds. *)
Theorem avr_watchdog_period_overflows :
  let s33 := Leaf.powerOn avr_int_bits 33 0 Leaf.boot in
  let s66 := Leaf.powerOn avr_int_bits 66 0 Leaf.boot in
  Leaf.OnPeriod s33 = -32536 /\
  to_unsigned ulong_bits (Leaf.OnPeriod s33) = 4294934760 /\
  Leaf.run avr_int_bits s33
    (map Leaf.idle [33000; 33500; 34000; 3600000; 86400000]) = s33 /\
  Leaf.PowerIsOn s33 = true /\ Leaf.PowerPin s33 = true /\
  Leaf.OnPeriod s66 = 464 /\
  Leaf.loop avr_int_bits s66 (Leaf.idle 500) = Leaf.switched_off s66.
Proof. vm_compute. repeat split. Qed.

(** C3 on a board with a 16 bit [int]: a deactivate packet with duration 33
    heard at 5 seconds by a node that is on leaves it on a day later; with
    duration 66 the node is off at 5.5 seconds, long before 71 seconds. *)
Theorem avr_deferred_off_overflows :
  let s := Leaf.powerOn avr_int_bits 20 0 Leaf.boot in
  let s33 := Leaf.loop avr_int_bits s (Leaf.heard 5000 [3; 0; 33]) in
  let s66 := Leaf.loop avr_int_bits s (Leaf.heard 5000 [3; 0; 66]) in
  s33 = Leaf.powerOff avr_int_bits 33 5000 s /\
  Leaf.OnPeriod s33 = -32536 /\
  Leaf.run avr_int_bits s33
    (map Leaf.idle [38000; 38500; 3600000; 86400000]) = s33 /\
  Leaf.PowerIsOn s33 = true /\ Leaf.PowerPin s33 = true /\
  Leaf.OnPeriod s66 = 464 /\
  Leaf.PowerIsOn (Leaf.loop avr_int_bits s66 (Leaf.idle 5500)) = false.
Proof. vm_compute. repeat split. Qed.

(** C4 on a board with a 16 bit [int]: a node on since 0 for 20 seconds
    hears at 10 seconds an activate packet for 66 seconds; the period
    becomes 464 milliseconds and the node is off at 10.5 seconds, before
    the 20 seconds first granted and long before 76 seconds. *)
Theorem avr_renewal_overflows :
  let s := Leaf.powerOn avr_int_bits 20 0 Leaf.boot in
  let s' := Leaf.loop avr_int_bits s (Leaf.heard 10000 [3; 1; 66]) in
  s' = Leaf.powerOn avr_int_bits 66 10000 s /\
  Leaf.TimeStart s' = 10000 /\
  Leaf.OnPeriod s' = 464 /\
  Leaf.loop avr_int_bits s' (Leaf.idle 10500) = Leaf.switched_off s' /\
  Leaf.PowerPin (Leaf.loop avr_int_bits s' (Leaf.idle 10500)) = false.
Proof. vm_compute. repeat split. Qed.

(** X2: with a 32 bit [int] the watchdog window holds for every duration a
    packet can carry: the node stays on through [t0 + P] seconds and is
    switched off by the first idle pass after it. *)
Lemma watchdog_window_32 (P t0 : Z) (s : Leaf.State) :
  0 <= P <= 255 ->
  let s0 := Leaf.powerOn arm_int_bits P t0 s in
  Leaf.PowerIsOn s0 = true /\ Leaf.PowerPin s0 = true /\
  (forall ks,
     Forall (fun k => Leaf.rx k = None /\
                      t0 <= Leaf.clock k <= t0 + P * 1000) ks ->
     Leaf.run arm_int_bits s0 ks = s0) /\
  (forall t junk,
     t0 + P * 1000 < t < t0 + 2 ^ ulong_bits ->
     Leaf.loop arm_int_bits s0 (Leaf.mkTick t None junk) = Leaf.switched_off s0).
Proof.
  intros HP. destruct (byte_duration_fits_32 P HP) as [H1 H2].
  apply window_after_powerOn; (reflexivity || lia || assumption).
Qed.

(** X3: with a 16 bit [int] it holds for the durations up to 32 seconds, among
    them the three the hub is configured with (20, 15 and 30). *)
Lemma watchdog_window_16 (P t0 : Z) (s : Leaf.State) :
  0 <= P <= 32 ->
  let s0 := Leaf.powerOn avr_int_bits P t0 s in
  Leaf.PowerIsOn s0 = true /\ Leaf.PowerPin s0 = true /\
  (forall ks,
     Forall (fun k => Leaf.rx k = None /\
                      t0 <= Leaf.clock k <= t0 + P * 1000) ks ->
     Leaf.run avr_int_bits s0 ks = s0) /\
  (forall t junk,
     t0 + P * 1000 < t < t0 + 2 ^ ulong_bits ->
     Leaf.loop avr_int_bits s0 (Leaf.mkTick t None junk) = Leaf.switched_off s0).
Proof.
  intros HP. destruct (short_duration_fits_16 P HP) as [H1 H2].
  apply window_after_powerOn; (reflexivity || lia || assumption).
Qed.

(** C5, as the code has it: [loop] has no decoding step and no test of the
    length received.  A message whose first byte is not [NodeID] is dropped,
    whatever its length: the globals and the output line keep their
    values. *)
Theorem unaddressed_message_discarded
    (int_bits : Z) (s : Leaf.State) (t b : Z) (rest junk : list Z) :
  b <> Leaf.NodeID ->
  Leaf.loop int_bits s (Leaf.mkTick t (Some (b :: rest)) junk) = s.
Proof.
  intros Hb. unfold Leaf.loop, Leaf.decode, Leaf.recv, Leaf.at_index.
  cbn [Leaf.rx Leaf.stale Leaf.RH_ASK_MAX_MESSAGE_LEN firstn app nth].
  destruct (Leaf.NodeID =? b) eqn:E; [|reflexivity].
  apply Z.eqb_eq in E. congruence.
Qed.

Lemma unaddressed_message_discarded_witness :
  Leaf.loop avr_int_bits (Leaf.mkState true 0 20000 true)
    (Leaf.mkTick 5000 (Some [2; 0; 0]) []) = Leaf.mkState true 0 20000 true.
Proof.
  apply (unaddressed_message_discarded avr_int_bits
           (Leaf.mkState true 0 20000 true) 5000 2 [0; 0] []).
  unfold Leaf.NodeID. lia.
Defined.

(** C5, as stated, fails: a message of one byte is not rejected.  Its byte
    is taken as the target and the two bytes that follow it in the buffer,
    left from before, as the command: here the node switches on for 30
    seconds. *)
Lemma short_message_not_rejected :
  let k := Leaf.mkTick 1000 (Some [3]) ([3; 1; 30] ++ repeat 0 57) in
  (length [3] < 3)%nat /\
  length (Leaf.stale k) = Leaf.RH_ASK_MAX_MESSAGE_LEN /\
  Leaf.loop avr_int_bits Leaf.boot k = Leaf.powerOn avr_int_bits 30 1000 Leaf.boot /\
  Leaf.PowerPin (Leaf.loop avr_int_bits Leaf.boot k) = true /\
  Leaf.loop arm_int_bits Leaf.boot k <> Leaf.boot.
Proof.
  vm_compute. repeat split; try discriminate. apply le_S, le_n.
Qed.

(** C6: the three fields the leaf node reads from the buffer after it
    received the three bytes [powerNode] sends are the arguments
    [powerNode] was called with. *)
Theorem decode_encode_roundtrip (t d : Z) (a : bool) (junk : list Z) :
  0 <= t <= 255 -> 0 <= d <= 255 ->
  Hub.transmissionPulse t a d = [t; of_bool a; d] /\
  Leaf.decode (Leaf.recv (Hub.transmissionPulse t a d) junk) = (t, a, d).
Proof.
  intros Ht Hd. unfold Hub.transmissionPulse.
  rewrite !to_unsigned_small by (change (2 ^ 8) with 256; lia).
  split; [reflexivity|].
  rewrite recv_three. destruct a; reflexivity.
Qed.

Lemma decode_encode_roundtrip_witness :
  Hub.transmissionPulse 2 true 20 = [2; 1; 20] /\
  Leaf.decode (Leaf.recv (Hub.transmissionPulse 2 true 20) [7; 7; 7; 7]) =
    (2, true, 20).
Proof.
  apply (decode_encode_roundtrip 2 20 true [7; 7; 7; 7]); lia.
Defined.

(** C10: in every state reached from the start by [checkTime], [powerOn]
    and [powerOff], [PowerIsOn] is true exactly when the output line is
    high, and each of the three operations keeps it so. *)
Theorem flag_matches_pin_invariant (int_bits : Z) (s : Leaf.State) :
  Leaf.reachable int_bits s ->
  Leaf.flag_matches_pin s /\
  forall o, Leaf.flag_matches_pin (Leaf.apply_op int_bits s o).
Proof.
  intros Hs.
  assert (Hinv : Leaf.flag_matches_pin s).
  { induction Hs as [|s o _ IH].
    - reflexivity.
    - now apply op_keeps_flag_and_pin. }
  split; [exact Hinv|].
  intros o. now apply op_keeps_flag_and_pin.
Qed.

Lemma flag_matches_pin_invariant_witness :
  Leaf.flag_matches_pin (Leaf.powerOn avr_int_bits 20 0 Leaf.boot).
Proof.
  apply (flag_matches_pin_invariant avr_int_bits
           (Leaf.powerOn avr_int_bits 20 0 Leaf.boot)).
  exact (Leaf.reach_op avr_int_bits Leaf.boot (Leaf.OpPowerOn 20 0)
           (Leaf.reach_boot avr_int_bits)).
Defined.

(** ** The decisions of the hub *)

Open Scope Q_scope.

Lemma float_gt_spec (x : Q) (k : Z) :
  Hub.float_gt x k = true <-> inject_Z k < x.
Proof.
  unfold Hub.float_gt. rewrite negb_true_iff.
  split; intros H.
  - apply Qnot_le_lt. intros Hle. apply Qle_bool_iff in Hle. congruence.
  - destruct (Qle_bool x (inject_Z k)) eqn:E; [|reflexivity].
    apply Qle_bool_iff in E. now apply Qlt_not_le in H.
Qed.

Lemma float_lt_spec (x : Q) (k : Z) :
  Hub.float_lt x k = true <-> x < inject_Z k.
Proof.
  unfold Hub.float_lt. rewrite negb_true_iff.
  split; intros H.
  - apply Qnot_le_lt. intros Hle. apply Qle_bool_iff in Hle. congruence.
  - destruct (Qle_bool (inject_Z k) x) eqn:E; [|reflexivity].
    apply Qle_bool_iff in E. now apply Qlt_not_le in H.
Qed.

Lemma thresholds_cases (target tolerance : Z) (v : Q) :
  Hub.band_case target tolerance v (Hub.thresholds target tolerance v).
Proof.
  unfold Hub.thresholds.
  destruct (Hub.float_gt v (target + tolerance)) eqn:Egt.
  - apply Hub.band_above. now apply float_gt_spec.
  - destruct (Hub.float_lt v (target - tolerance)) eqn:Elt.
    + apply Hub.band_below. now apply float_lt_spec.
    + apply Hub.band_within. split; apply Qnot_lt_le; intros H.
      * apply float_lt_spec in H. congruence.
      * apply float_gt_spec in H. congruence.
Qed.

Lemma band_exclusive (target tolerance : Z) (v : Q) :
  (0 <= tolerance)%Z ->
  v < inject_Z (target - tolerance) ->
  inject_Z (target + tolerance) < v -> False.
Proof.
  intros Htol Hlo Hhi.
  assert (Hle : inject_Z (target - tolerance) <= inject_Z (target + tolerance)).
  { rewrite <- Zle_Qle. lia. }
  apply (Qlt_irrefl v).
  apply (Qlt_le_trans _ _ _ Hlo).
  apply (Qle_trans _ _ _ Hle). now apply Qlt_le_weak.
Qed.

(** The outcome of the two tests on a reading, for a tolerance that is not
    negative. *)
Lemma thresholds_outcome (target tolerance : Z) (v : Q) :
  (0 <= tolerance)%Z ->
  let d := Hub.outcome (snd (Hub.thresholds target tolerance v))
                       (fst (Hub.thresholds target tolerance v)) in
  (d = Hub.ActivateRequested <-> v < inject_Z (target - tolerance)) /\
  (d = Hub.DeactivateRequested <-> inject_Z (target + tolerance) < v) /\
  (d = Hub.NoChange <->
     inject_Z (target - tolerance) <= v <= inject_Z (target + tolerance)).
Proof.
  intros Htol d. subst d.
  destruct (thresholds_cases target tolerance v) as [Hhi|Hlo|[Hlo Hhi]];
    cbn [fst snd Hub.outcome];
    (split; [|split]); (split; intros H); try discriminate; try assumption;
    try reflexivity; try (split; assumption); exfalso.
  - now apply (band_exclusive target tolerance v).
  - destruct H as [_ H]. now apply (Qle_not_lt _ _ H).
  - now apply (band_exclusive target tolerance v).
  - destruct H as [H _]. now apply (Qle_not_lt _ _ H).
  - now apply (Qle_not_lt _ _ Hlo).
  - now apply (Qle_not_lt _ _ Hhi).
Qed.

(** The decision for each quantity is the outcome of the two tests on its
    own reading. *)
Lemma decision_thresholds (q : Hub.Quantity) (temp humidity : Q) :
  Hub.decision q temp humidity =
  Hub.outcome
    (snd (Hub.thresholds (Hub.target q) (Hub.tolerance q)
            (Hub.reading q temp humidity)))
    (fst (Hub.thresholds (Hub.target q) (Hub.tolerance q)
            (Hub.reading q temp humidity))).
Proof.
  unfold Hub.decision, Hub.heater_decision, Hub.humidifier_decision, Hub.sense.
  destruct (Hub.thresholds Hub.TargetTemp Hub.ToleranceTemp temp)
    as [heat_off heat_on] eqn:Et.
  destruct (Hub.thresholds Hub.TargetHumidity Hub.ToleranceHumidity humidity)
    as [hum_off hum_on] eqn:Eh.
  destruct q; cbn [Hub.target Hub.tolerance Hub.reading
                   Hub.HeatingOn Hub.HeatingOff
                   Hub.HumidifierOn Hub.HumidifierOff].
  - now rewrite Et.
  - now rewrite Eh.
Qed.

Lemma tolerance_nonneg (q : Hub.Quantity) : (0 <= Hub.tolerance q)%Z.
Proof. destruct q; discriminate. Qed.

Lemma thresholds_within (target tolerance : Z) (v : Q) :
  inject_Z (target - tolerance) <= v <= inject_Z (target + tolerance) ->
  Hub.thresholds target tolerance v = (false, false).
Proof.
  intros [Hlo Hhi]. unfold Hub.thresholds.
  destruct (Hub.float_gt v (target + tolerance)) eqn:Egt.
  - apply float_gt_spec in Egt. now apply Qle_not_lt in Hhi.
  - destruct (Hub.float_lt v (target - tolerance)) eqn:Elt; [|reflexivity].
    apply float_lt_spec in Elt. now apply Qle_not_lt in Hlo.
Qed.

(** ** The claims about the hub *)

(** C7: for temperature and for humidity, the decision of a cycle is to
    activate exactly when the reading is below target - tolerance, to
    deactivate exactly when it is above target + tolerance, and no change
    exactly when it is within the band, ends included; a reading at the
    target or at either end of the band gives no change.  The decision is a
    function of the readings alone. *)
Theorem hysteresis_decision (q : Hub.Quantity) (temp humidity : Q) :
  let v := Hub.reading q temp humidity in
  let d := Hub.decision q temp humidity in
  let lo := inject_Z (Hub.target q - Hub.tolerance q) in
  let hi := inject_Z (Hub.target q + Hub.tolerance q) in
  (d = Hub.ActivateRequested <-> v < lo) /\
  (d = Hub.DeactivateRequested <-> hi < v) /\
  (d = Hub.NoChange <-> lo <= v <= hi) /\
  Hub.decision Hub.Temperature (inject_Z Hub.TargetTemp) humidity
    = Hub.NoChange /\
  Hub.decision Hub.Temperature
    (inject_Z (Hub.TargetTemp + Hub.ToleranceTemp)) humidity = Hub.NoChange /\
  Hub.decision Hub.Temperature
    (inject_Z (Hub.TargetTemp - Hub.ToleranceTemp)) humidity = Hub.NoChange /\
  Hub.decision Hub.Humidity temp (inject_Z Hub.TargetHumidity)
    = Hub.NoChange /\
  Hub.decision Hub.Humidity temp
    (inject_Z (Hub.TargetHumidity + Hub.ToleranceHumidity)) = Hub.NoChange /\
  Hub.decision Hub.Humidity temp
    (inject_Z (Hub.TargetHumidity - Hub.ToleranceHumidity)) = Hub.NoChange.
Proof.
  intros v d lo hi. subst v d lo hi.
  rewrite !decision_thresholds.
  pose proof (thresholds_outcome (Hub.target q) (Hub.tolerance q)
                (Hub.reading q temp humidity) (tolerance_nonneg q))
    as (Hact & Hdeact & Hnone).
  repeat (split; [assumption || reflexivity|]).
  reflexivity.
Qed.

(** C8: with a temperature of 18 degrees and the humidity within its band,
    the heater is to be activated, and the cycle sends two packets, to the
    heater for [TimeOnHeater] and then to the fan for [TimeOnFan]. *)
Theorem scenario_cold_room (humidity : Q) :
  inject_Z (Hub.TargetHumidity - Hub.ToleranceHumidity) <= humidity
    <= inject_Z (Hub.TargetHumidity + Hub.ToleranceHumidity) ->
  Hub.decision Hub.Temperature (inject_Z 18) humidity = Hub.ActivateRequested /\
  Hub.decision Hub.Humidity (inject_Z 18) humidity = Hub.NoChange /\
  Hub.cycle (inject_Z 18) humidity =
    [Hub.transmissionPulse Hub.HeatNode true Hub.TimeOnHeater;
     Hub.transmissionPulse Hub.FanNode true Hub.TimeOnFan] /\
  Hub.cycle (inject_Z 18) humidity = [[2; 1; 20]; [3; 1; 30]]%Z.
Proof.
  intros Hband.
  rewrite !decision_thresholds.
  unfold Hub.cycle, Hub.loop, Hub.sense.
  cbn [Hub.target Hub.tolerance Hub.reading].
  rewrite (thresholds_within _ _ _ Hband).
  repeat split.
Qed.

Lemma scenario_cold_room_witness :
  Hub.cycle (inject_Z 18) (inject_Z 40) = [[2; 1; 20]; [3; 1; 30]]%Z.
Proof.
  apply (scenario_cold_room (inject_Z 40)).
  split; discriminate.
Defined.

(** C9: a cycle sends the packet that activates the fan for [TimeOnFan]
    exactly when the heater or the humidifier is to be activated, and no
    packet of a cycle switches the fan off. *)
Theorem fan_follows_activation (temp humidity : Q) :
  (In (Hub.transmissionPulse Hub.FanNode true Hub.TimeOnFan)
      (Hub.cycle temp humidity) <->
   Hub.decision Hub.Temperature temp humidity = Hub.ActivateRequested \/
   Hub.decision Hub.Humidity temp humidity = Hub.ActivateRequested) /\
  Forall (fun p => Hub.fan_deactivate p = false) (Hub.cycle temp humidity).
Proof.
  unfold Hub.cycle, Hub.loop, Hub.decision, Hub.heater_decision,
    Hub.humidifier_decision, Hub.sense, Hub.thresholds.
  destruct (Hub.float_gt temp _); [|destruct (Hub.float_lt temp _)];
    (destruct (Hub.float_gt humidity _);
       [|destruct (Hub.float_lt humidity _)]);
    vm_compute;
    (split; [split; [intros H; intuition discriminate
                    | intros H; intuition discriminate]
            | repeat constructor]).
Qed.

(** ** Further properties of the leaf node *)

Close Scope Q_scope.
Open Scope Z_scope.

Lemma to_signed_below (bits x : Z) :
  0 < bits -> to_signed bits x < 2 ^ (bits - 1).
Proof.
  intros Hb. unfold to_signed.
  assert (H2 : 2 ^ bits = 2 * 2 ^ (bits - 1)).
  { rewrite <- Z.pow_succ_r by lia. f_equal. lia. }
  assert (Hpos : 0 < 2 ^ bits) by (apply Z.pow_pos_nonneg; lia).
  pose proof (Z.mod_pos_bound (x + 2 ^ (bits - 1)) (2 ^ bits) Hpos). lia.
Qed.

Lemma to_unsigned_negative (p : Z) :
  - 2 ^ ulong_bits <= p < 0 -> to_unsigned ulong_bits p = p + 2 ^ ulong_bits.
Proof.
  intros Hp. unfold to_unsigned.
  rewrite <- (Z_mod_plus_full p 1 (2 ^ ulong_bits)).
  apply Z.mod_small. rewrite pow2_32 in *. lia.
Qed.

(** A pass that does not call [powerOn] leaves a node that is off as it
    is. *)
Lemma quiet_pass_when_off (int_bits : Z) (s : Leaf.State) (k : Leaf.Tick) :
  Leaf.PowerIsOn s = false -> Trace.activates k = false ->
  Leaf.loop int_bits s k = s.
Proof.
  intros Hoff Hq. unfold Leaf.loop, Trace.activates in *.
  destruct (Leaf.rx k) as [msg|].
  - destruct (Leaf.decode (Leaf.recv msg (Leaf.stale k))) as [[id on] len].
    destruct (Leaf.NodeID =? id); [|reflexivity].
    simpl in Hq. subst on. now apply powerOff_when_off.
  - now rewrite Hoff.
Qed.

(** A message whose first byte is not [NodeID] changes nothing. *)
Lemma pass_for_other_node
    (int_bits : Z) (s : Leaf.State) (k : Leaf.Tick) (b : Z) (rest : list Z) :
  Leaf.rx k = Some (b :: rest) -> b <> Leaf.NodeID ->
  Leaf.loop int_bits s k = s.
Proof.
  intros Hrx Hb. unfold Leaf.loop, Leaf.decode, Leaf.recv, Leaf.at_index.
  rewrite Hrx. cbn [Leaf.RH_ASK_MAX_MESSAGE_LEN firstn app nth].
  destruct (Leaf.NodeID =? b) eqn:E; [|reflexivity].
  apply Z.eqb_eq in E. congruence.
Qed.

(** X1: a node that is off stays as it is, output line included, through
    any sequence of passes none of which delivers an activate command for
    it: passes without a message, messages for other nodes and deactivate
    commands, of any duration, do nothing to it. *)
Theorem off_stays_off (int_bits : Z) (s : Leaf.State) (ks : list Leaf.Tick) :
  Leaf.PowerIsOn s = false ->
  Forall (fun k => Trace.activates k = false) ks ->
  Leaf.run int_bits s ks = s.
Proof.
  intros Hoff Hks. unfold Leaf.run.
  induction Hks as [|k ks Hk _ IH]; simpl.
  - reflexivity.
  - now rewrite (quiet_pass_when_off int_bits s k Hoff Hk).
Qed.

Lemma off_stays_off_witness :
  Leaf.run avr_int_bits Leaf.boot
    [Leaf.idle 500; Leaf.heard 700 [3; 0; 0]; Leaf.heard 900 [3; 0; 40];
     Leaf.heard 1000 [2; 1; 20]; Leaf.idle 90000] = Leaf.boot.
Proof.
  apply (off_stays_off avr_int_bits Leaf.boot).
  - reflexivity.
  - repeat constructor.
Defined.

(** X4: with a 16 bit [int], [powerOn] stores the requested number of
    seconds, in milliseconds, exactly for the durations up to 32 seconds:
    from 33 seconds on [OnPeriod] is not [onTime * 1000]. *)
Theorem avr_period_exact_iff (P t : Z) (s : Leaf.State) :
  0 <= P <= 255 ->
  (Leaf.OnPeriod (Leaf.powerOn avr_int_bits P t s) = P * 1000 <-> P <= 32).
Proof.
  intros HP. cbn [Leaf.OnPeriod Leaf.powerOn]. split.
  - intros Heq.
    assert (Hlt : to_signed avr_int_bits (P * 1000) < 2 ^ (avr_int_bits - 1))
      by (apply to_signed_below; reflexivity).
    rewrite Heq in Hlt. change (2 ^ (avr_int_bits - 1)) with 32768 in Hlt. lia.
  - intros Hle. apply to_signed_fits; [reflexivity|].
    change (2 ^ (avr_int_bits - 1)) with 32768. lia.
Qed.

Lemma avr_period_exact_iff_witness :
  Leaf.OnPeriod (Leaf.powerOn avr_int_bits 32 0 Leaf.boot) = 32 * 1000.
Proof.
  apply (avr_period_exact_iff 32 0 Leaf.boot); lia.
Defined.

(** X5: a negative [OnPeriod] is read by [checkTime] as an
    [unsigned long]: a node that is on with a negative period [p] keeps its
    state through every pass without a message until [2^32 + p]
    milliseconds after [TimeStart]. *)
Theorem negative_period_keeps_on
    (int_bits : Z) (s : Leaf.State) (t0 : Z) (ks : list Leaf.Tick) :
  Leaf.PowerIsOn s = true ->
  Leaf.TimeStart s = Leaf.millis t0 ->
  - 2 ^ (ulong_bits - 1) <= Leaf.OnPeriod s < 0 ->
  Forall (fun k => Leaf.rx k = None /\
                   t0 <= Leaf.clock k <= t0 + 2 ^ ulong_bits + Leaf.OnPeriod s)
         ks ->
  Leaf.run int_bits s ks = s.
Proof.
  intros Hon Hs Hp Hks. unfold Leaf.run.
  change (2 ^ (ulong_bits - 1)) with 2147483648 in Hp.
  induction Hks as [|k ks [Hrx Hk] _ IH]; simpl.
  - reflexivity.
  - replace (Leaf.loop int_bits s k) with s; [exact IH|].
    destruct k as [t r junk]; simpl in *; subst r.
    rewrite (loop_idle_on int_bits s t junk Hon).
    unfold Leaf.checkTime.
    rewrite (elapsed_since s t0 t Hs) by (rewrite pow2_32 in *; lia).
    rewrite to_unsigned_negative by (rewrite pow2_32; lia).
    destruct (t - t0 >? Leaf.OnPeriod s + 2 ^ ulong_bits) eqn:E;
      [rewrite ?pow2_32 in *; lia | reflexivity].
Qed.

Lemma negative_period_keeps_on_witness :
  Leaf.run avr_int_bits (Leaf.mkState true 0 (-32536) true)
    [Leaf.idle 33500; Leaf.idle 4294934760] =
  Leaf.mkState true 0 (-32536) true.
Proof.
  apply (negative_period_keeps_on avr_int_bits
           (Leaf.mkState true 0 (-32536) true) 0).
  - reflexivity.
  - reflexivity.
  - cbn [Leaf.OnPeriod]. change (2 ^ (ulong_bits - 1)) with 2147483648. lia.
  - cbn [Leaf.OnPeriod]. rewrite pow2_32.
    repeat constructor; cbn [Leaf.clock Leaf.idle]; lia.
Defined.

Lemma watchdog_window_32_witness :
  Leaf.loop arm_int_bits (Leaf.powerOn arm_int_bits 255 4294967000 Leaf.boot)
    (Leaf.mkTick 4295222001 None []) =
  Leaf.switched_off (Leaf.powerOn arm_int_bits 255 4294967000 Leaf.boot).
Proof.
  destruct (watchdog_window_32 255 4294967000 Leaf.boot) as (_ & _ & _ & H).
  - lia.
  - apply H. rewrite pow2_32. lia.
Defined.

Lemma watchdog_window_16_witness :
  Leaf.run avr_int_bits (Leaf.powerOn avr_int_bits 30 1000 Leaf.boot)
    [Leaf.idle 1500; Leaf.idle 31000] =
  Leaf.powerOn avr_int_bits 30 1000 Leaf.boot.
Proof.
  destruct (watchdog_window_16 30 1000 Leaf.boot) as (_ & _ & H & _).
  - lia.
  - apply H. repeat constructor; cbn [Leaf.clock Leaf.idle]; lia.
Defined.

Lemma window_after_powerOff_witness :
  Leaf.loop avr_int_bits
    (Leaf.powerOff avr_int_bits 10 5000 (Leaf.mkState true 0 20000 true))
    (Leaf.mkTick 15001 None []) =
  Leaf.switched_off
    (Leaf.powerOff avr_int_bits 10 5000 (Leaf.mkState true 0 20000 true)).
Proof.
  destruct (window_after_powerOff avr_int_bits ltac:(reflexivity) 10 5000
              (Leaf.mkState true 0 20000 true)) as (_ & _ & _ & H).
  - reflexivity.
  - lia.
  - reflexivity.
  - reflexivity.
  - apply H. rewrite pow2_32. lia.
Defined.

Lemma deactivate_now_witness :
  Leaf.loop avr_int_bits (Leaf.mkState true 0 20000 true)
    (Leaf.mkTick 5000 (Some (Hub.transmissionPulse Leaf.NodeID false 0)) []) =
  Leaf.mkState false 0 20000 false.
Proof.
  apply (deactivate_now avr_int_bits (Leaf.mkState true 0 20000 true) 5000 []).
  reflexivity.
Defined.

Lemma renewal_witness :
  Leaf.loop avr_int_bits (Leaf.mkState true 0 20000 true)
    (Leaf.mkTick 10000 (Some (Hub.transmissionPulse Leaf.NodeID true 30)) []) =
  Leaf.mkState true (Leaf.millis 10000) (30 * 1000) true.
Proof.
  apply (renewal avr_int_bits ltac:(reflexivity)
           (Leaf.mkState true 0 20000 true) 30 10000 []).
  - lia.
  - reflexivity.
Defined.

(** X9: renewals keep a node on.  A node on with a window of [P] seconds
    open, through passes that keep the window open ([Trace.sustained]: each
    pass without a message within [P] seconds of the last activate packet
    for [P] seconds, messages for other nodes in between), is on at the end
    with the line high, its window the one of the last renewal. *)
Theorem sustained_by_renewals
    (int_bits P t0 : Z) (ks : list Leaf.Tick) :
  0 < int_bits -> 0 <= P <= 255 -> P * 1000 < 2 ^ (int_bits - 1) ->
  Trace.sustained P t0 ks ->
  exists t1,
    Leaf.run int_bits (Leaf.mkState true (Leaf.millis t0) (P * 1000) true) ks =
    Leaf.mkState true (Leaf.millis t1) (P * 1000) true.
Proof.
  intros Hb HP Hfit Hks. unfold Leaf.run.
  induction Hks as [t0|t0 k ks Hrx Hk _ IH|t0 k b rest ks Hrx Hb' _ IH
                   |t0 k ks Hrx _ IH]; cbn [fold_left].
  - now exists t0.
  - replace (Leaf.loop int_bits _ k)
      with (Leaf.mkState true (Leaf.millis t0) (P * 1000) true);
      [exact IH|].
    symmetry.
    apply (watchdog_holds int_bits _ t0 [k]);
      cbn [Leaf.PowerIsOn Leaf.TimeStart Leaf.OnPeriod];
      try reflexivity.
    + rewrite pow2_32. lia.
    + constructor; [split; assumption | constructor].
  - rewrite (pass_for_other_node int_bits _ k b rest Hrx Hb'). exact IH.
  - replace (Leaf.loop int_bits _ k)
      with (Leaf.mkState true (Leaf.millis (Leaf.clock k)) (P * 1000) true);
      [exact IH|].
    symmetry. destruct k as [t r junk]. cbn [Leaf.rx Leaf.clock] in *.
    subst r. rewrite loop_addressed by lia.
    apply powerOn_state; [assumption|].
    pose proof (Z.pow_nonneg 2 (int_bits - 1)). lia.
Qed.

Lemma sustained_by_renewals_witness :
  exists t1,
    Leaf.run avr_int_bits (Leaf.mkState true (Leaf.millis 0) (30 * 1000) true)
      [Leaf.idle 500; Leaf.heard 10000 [2; 1; 20];
       Leaf.heard 10200 [3; 1; 30]; Leaf.idle 40000] =
    Leaf.mkState true (Leaf.millis t1) (30 * 1000) true.
Proof.
  apply (sustained_by_renewals avr_int_bits 30 0).
  - reflexivity.
  - lia.
  - reflexivity.
  - apply Trace.sustained_idle; [reflexivity | cbn [Leaf.clock Leaf.idle]; lia |].
    apply (Trace.sustained_other 30 0 _ 2 [1; 20]);
      [reflexivity | discriminate |].
    apply Trace.sustained_renew; [reflexivity|].
    apply Trace.sustained_idle;
      [reflexivity | cbn [Leaf.clock Leaf.idle Leaf.heard]; lia |].
    apply Trace.sustained_end.
Defined.

(** X10: [loop] reads three bytes and no more: of a message of three bytes
    or more, what follows the third byte, and what the buffer held before,
    make no difference. *)
Theorem trailing_bytes_ignored
    (int_bits : Z) (s : Leaf.State) (t b0 b1 b2 : Z) (rest junk : list Z) :
  Leaf.loop int_bits s (Leaf.mkTick t (Some (b0 :: b1 :: b2 :: rest)) junk) =
  Leaf.loop int_bits s (Leaf.mkTick t (Some [b0; b1; b2]) []).
Proof.
  unfold Leaf.loop, Leaf.decode, Leaf.recv, Leaf.at_index.
  cbn [Leaf.rx Leaf.stale Leaf.clock Leaf.RH_ASK_MAX_MESSAGE_LEN
       firstn app nth].
  reflexivity.
Qed.

(** X11: whatever the receiver delivers and whenever, after any number of
    passes of [loop] from the start [PowerIsOn] is true exactly when the
    output line is high. *)
Theorem run_keeps_flag_and_pin (int_bits : Z) (ks : list Leaf.Tick) :
  Leaf.flag_matches_pin (Leaf.run int_bits Leaf.boot ks).
Proof.
  assert (Hr : Leaf.reachable int_bits (Leaf.run int_bits Leaf.boot ks))
    by (apply run_reachable; constructor).
  induction Hr as [|s o _ IH].
  - reflexivity.
  - now apply op_keeps_flag_and_pin.
Qed.

(** ** Further properties of the hub *)

(** The nine cases of a cycle: each reading above its band, below it, or
    neither. *)
Ltac hub_cases temp humidity :=
  unfold Hub.cycle, Hub.loop, Hub.decision, Hub.heater_decision,
    Hub.humidifier_decision, Hub.sense, Hub.thresholds in *;
  destruct (Hub.float_gt temp _); [|destruct (Hub.float_lt temp _)];
  (destruct (Hub.float_gt humidity _); [|destruct (Hub.float_lt humidity _)]).

(** X13: the packets of a cycle are, in this order, the command for the
    humidifier that the humidity decides, the command for the heater that
    the temperature decides, and the activation of the fan when either is
    switched on: one packet for each decision that is not no change,
    activations with the run time of their node and deactivations with 0. *)
Theorem cycle_by_decisions (temp humidity : Q) :
  Hub.cycle temp humidity =
    Trace.command Hub.HumNode (Hub.decision Hub.Humidity temp humidity)
    ++ Trace.command Hub.HeatNode (Hub.decision Hub.Temperature temp humidity)
    ++ (if Hub.HeatingOn (Hub.sense temp humidity)
           || Hub.HumidifierOn (Hub.sense temp humidity)
        then [[Hub.FanNode; 1; Hub.TimeOnFan]] else []).
Proof.
  hub_cases temp humidity; reflexivity.
Qed.

(** X14: a cycle sends nothing exactly when both readings are within their
    bands, ends included. *)
Theorem cycle_silent_iff_in_band (temp humidity : Q) :
  Hub.cycle temp humidity = [] <->
  (inject_Z (Hub.TargetTemp - Hub.ToleranceTemp) <= temp
     <= inject_Z (Hub.TargetTemp + Hub.ToleranceTemp))%Q /\
  (inject_Z (Hub.TargetHumidity - Hub.ToleranceHumidity) <= humidity
     <= inject_Z (Hub.TargetHumidity + Hub.ToleranceHumidity))%Q.
Proof.
  pose proof (thresholds_outcome Hub.TargetTemp Hub.ToleranceTemp temp
                (tolerance_nonneg Hub.Temperature)) as (_ & _ & Ht).
  pose proof (thresholds_outcome Hub.TargetHumidity Hub.ToleranceHumidity
                humidity (tolerance_nonneg Hub.Humidity)) as (_ & _ & Hh).
  rewrite <- Ht, <- Hh. clear Ht Hh.
  hub_cases temp humidity; cbn [fst snd Hub.outcome];
    (split; [intros H; try discriminate H; split; reflexivity
            | intros [H1 H2]; try discriminate H1; try discriminate H2;
              reflexivity]).
Qed.

(** X15: a cycle sends at most three packets; each is three bytes, is
    addressed to a leaf node and never to the hub, and carries a flag of 0
    or 1; the targets come in increasing order, so no node is addressed
    twice in a cycle. *)
Theorem cycle_well_formed (temp humidity : Q) :
  forallb Trace.well_formed (Hub.cycle temp humidity) = true /\
  (length (Hub.cycle temp humidity) <= 3)%nat /\
  StronglySorted Z.lt (map Trace.pkt_target (Hub.cycle temp humidity)).
Proof.
  hub_cases temp humidity;
    (split; [reflexivity | split; [vm_compute; repeat constructor|]]);
    cbv; repeat constructor.
Qed.

(** X16: every packet of a cycle that activates carries the run time
    configured for its target (15, 20 or 30 seconds), and every packet that
    deactivates carries 0. *)
Theorem cycle_durations (temp humidity : Q) :
  forallb Trace.duration_by_kind (Hub.cycle temp humidity) = true.
Proof.
  hub_cases temp humidity; reflexivity.
Qed.

(** X17: [loop] adds the packets of its cycle after those already sent, and
    leaves those as they are. *)
Theorem loop_appends (temp humidity : Q) (air : list (list Z)) :
  Hub.loop temp humidity air = air ++ Hub.cycle temp humidity.
Proof.
  unfold Hub.cycle, Hub.loop, Hub.transmit, Hub.powerNode.
  destruct (Hub.sense temp humidity) as [heat_on heat_off hum_on hum_off].
  cbn [Hub.HeatingOn Hub.HeatingOff Hub.HumidifierOn Hub.HumidifierOff].
  destruct heat_on, heat_off, hum_on, hum_off; cbn [orb app];
    rewrite <- ?app_assoc, ?app_nil_r; reflexivity.
Qed.

(** ** The hub and the fan node together *)

Lemma fan_time_fits (int_bits : Z) :
  16 <= int_bits ->
  - 2 ^ (int_bits - 1) <= Hub.TimeOnFan * 1000 < 2 ^ (int_bits - 1).
Proof.
  intros Hb.
  assert (H15 : 2 ^ 15 <= 2 ^ (int_bits - 1))
    by (apply Z.pow_le_mono_r; lia).
  change (2 ^ 15) with 32768 in H15.
  change (Hub.TimeOnFan * 1000) with 30000. lia.
Qed.

(** The fan node hears the packet that activates the fan. *)
Lemma hear_fan_packet
    (int_bits : Z) (s : Leaf.State) (t : Z) (junk : list Z) :
  16 <= int_bits ->
  Leaf.loop int_bits s (Leaf.mkTick t (Some [3; 1; 30]) junk) =
  Leaf.mkState true (Leaf.millis t) (Hub.TimeOnFan * 1000) true.
Proof.
  intros Hb.
  change [3; 1; 30] with (Hub.transmissionPulse Leaf.NodeID true Hub.TimeOnFan).
  rewrite loop_addressed by (unfold Hub.TimeOnFan; lia).
  apply powerOn_state; [lia | now apply fan_time_fits].
Qed.

(** The fan node hears a packet for another node. *)
Lemma hear_other_packet
    (int_bits : Z) (s : Leaf.State) (t b0 b1 b2 : Z) (junk : list Z) :
  b0 <> Leaf.NodeID ->
  Leaf.loop int_bits s (Leaf.mkTick t (Some [b0; b1; b2]) junk) = s.
Proof.
  intros Hb. now apply (pass_for_other_node int_bits s _ b0 [b1; b2]).
Qed.

(** X18: the effect of a cycle of the hub on the fan node, when the node
    receives every packet of the cycle, in order, one in each pass,
    whatever its state before and with either width of [int]: if the cycle
    switches the heater or the humidifier on, the node ends on with the
    line high and a window of [TimeOnFan] seconds from the clock of the
    last pass; if not, the node is left as it was. *)
Theorem fan_node_after_cycle
    (int_bits : Z) (s : Leaf.State) (temp humidity : Q) (ks : list Leaf.Tick) :
  16 <= int_bits ->
  map Leaf.rx ks = map Some (Hub.cycle temp humidity) ->
  Leaf.run int_bits s ks =
    if Hub.HeatingOn (Hub.sense temp humidity)
       || Hub.HumidifierOn (Hub.sense temp humidity)
    then Leaf.mkState true
           (Leaf.millis (Leaf.clock (last ks (Leaf.idle 0))))
           (Hub.TimeOnFan * 1000) true
    else s.
Proof.
  intros Hb Hmap.
  hub_cases temp humidity;
    destruct ks as [|[c1 r1 j1] [|[c2 r2 j2] [|[c3 r3 j3] [|k4 ks]]]];
    vm_compute in Hmap; try discriminate Hmap;
    repeat match goal with
           | H : _ :: _ = _ :: _ |- _ => inversion H; clear H; subst
           end;
    unfold Leaf.run;
    cbn [fold_left last Leaf.clock orb
         Hub.HeatingOn Hub.HumidifierOn];
    repeat first
      [ rewrite (hear_fan_packet int_bits) by exact Hb
      | rewrite hear_other_packet by discriminate ];
    reflexivity.
Qed.

Lemma fan_node_after_cycle_witness :
  Leaf.run avr_int_bits Leaf.boot
    [Leaf.heard 100 [2; 1; 20]; Leaf.heard 300 [3; 1; 30]] =
  Leaf.mkState true (Leaf.millis 300) (Hub.TimeOnFan * 1000) true.
Proof.
  apply (fan_node_after_cycle avr_int_bits Leaf.boot
           (inject_Z 18) (inject_Z 40)
           [Leaf.heard 100 [2; 1; 20]; Leaf.heard 300 [3; 1; 30]]).
  - unfold avr_int_bits. lia.
  - reflexivity.
Defined.

(** ** Expiry after traffic for other nodes *)

Lemma run_app (int_bits : Z) (s : Leaf.State) (ks ks' : list Leaf.Tick) :
  Leaf.run int_bits s (ks ++ ks') =
  Leaf.run int_bits (Leaf.run int_bits s ks) ks'.
Proof. unfold Leaf.run. apply fold_left_app. Qed.

(** X12: messages for other nodes put the expiry check off, and no more
    than that: a node that is on and hears only such messages keeps its
    state, and the first pass without a message after the end of its window
    switches it off. *)
Theorem expiry_after_other_traffic
    (int_bits : Z) (s : Leaf.State) (t0 t : Z)
    (ks : list Leaf.Tick) (junk : list Z) :
  Leaf.PowerIsOn s = true ->
  Leaf.TimeStart s = Leaf.millis t0 ->
  0 <= Leaf.OnPeriod s < 2 ^ ulong_bits ->
  Forall (fun k => exists b rest,
            Leaf.rx k = Some (b :: rest) /\ b <> Leaf.NodeID) ks ->
  t0 + Leaf.OnPeriod s < t < t0 + 2 ^ ulong_bits ->
  Leaf.run int_bits s ks = s /\
  Leaf.run int_bits s (ks ++ [Leaf.mkTick t None junk]) = Leaf.switched_off s.
Proof.
  intros Hon Hs Hp Hks Ht.
  assert (Hrun : Leaf.run int_bits s ks = s).
  { unfold Leaf.run.
    induction Hks as [|k ks (b & rest & Hrx & Hb) _ IH]; cbn [fold_left].
    - reflexivity.
    - now rewrite (pass_for_other_node int_bits s k b rest Hrx Hb). }
  split; [exact Hrun|].
  rewrite run_app, Hrun. unfold Leaf.run. cbn [fold_left].
  now apply (watchdog_expires int_bits s t0).
Qed.

Lemma expiry_after_other_traffic_witness :
  Leaf.run avr_int_bits (Leaf.mkState true 0 20000 true)
    ([Leaf.heard 19900 [1; 1; 15]; Leaf.heard 20100 [2; 1; 20]]
       ++ [Leaf.mkTick 20600 None []]) =
  Leaf.mkState false 0 20000 false.
Proof.
  apply (expiry_after_other_traffic avr_int_bits
           (Leaf.mkState true 0 20000 true) 0 20600
           [Leaf.heard 19900 [1; 1; 15]; Leaf.heard 20100 [2; 1; 20]] []).
  - reflexivity.
  - reflexivity.
  - cbn [Leaf.OnPeriod]. rewrite pow2_32. lia.
  - constructor; [exists 1, [1; 15]; split; [reflexivity | discriminate]|].
    constructor; [exists 2, [1; 20]; split; [reflexivity | discriminate]|].
    constructor.
  - cbn [Leaf.OnPeriod]. rewrite pow2_32. lia.
Defined.
